(** * te-studio-poc: the scene of [pages/index.js]

    A shallow embedding of the parts of [pages/index.js] that carry
    behaviour: the per-frame terrain update of [Landscape], the LED
    sampling of [Panel] and [Panels], and the selection state edited by
    [Controls].

    Conventions.
    - A JavaScript number is an exact rational ([Q]); [%] is the
      truncating remainder of the language.  Rounding of IEEE doubles is
      not part of the model.
    - The [selected] object is a finite map from its own property names
      to values.  Reading [selected[k]] follows the prototype chain: a
      name without an own property that [Object.prototype] defines
      ([constructor], [toString], ...) reads as the inherited member.
    - [Array.prototype.map] keeps one slot per element, so a callback
      that returns nothing leaves [None] in the slot; React drops those
      slots when it mounts the children.
    - Code that throws returns [TypeError]. *)

From Stdlib Require Import QArith Qround.
From stdpp Require Import gmap strings list fin_maps pretty.

Local Open Scope Q_scope.

(** * Part I: the program *)

(** ** Numbers *)

Module Num.

(** Integer part of a rational, rounding toward zero. *)
Definition Qtrunc (q : Q) : Z := Z.quot (Qnum q) (Zpos (Qden q)).

(** [a % b] on numbers: the remainder has the sign of the dividend. *)
Definition js_rem (a b : Q) : Q := a - b * inject_Z (Qtrunc (a / b)).

(** [ceil(a / k)] for a count [a] and a positive [k]. *)
Definition ceil_div (a k : nat) : nat := ((a + (k - 1)) / k)%nat.

(** [i % k != 0] on array indices.  [i % 0] is [NaN], which differs
    from every number. *)
Definition rem_ne_0 (i k : nat) : bool :=
  match k with
  | O => true
  | S _ => negb (Nat.eqb (i mod k) 0)
  end.

End Num.

(** ** Thrown exceptions *)

Inductive result (A : Type) : Type :=
| Ok (a : A)
| TypeError.
Arguments Ok {A} a.
Arguments TypeError {A}.

(** Sequencing: the first exception ends the computation. *)
#[global] Instance result_bind : MBind result := fun A B k r =>
  match r with
  | Ok a => k a
  | TypeError => TypeError
  end.

(** The children React keeps from an array: the empty slots are
    dropped, the order stays. *)
Definition compact {A} (l : list (option A)) : list A :=
  omap (fun x : option A => x) l.

(** ** TerrainLoop: the frame callback of [Landscape] *)

Module Landscape.

(** The [position.z] of the two terrain meshes. *)
Record TerrainState := { terrain1_z : Q; terrain2_z : Q }.

(** The meshes are mounted at [z = 0] and [z = -2]. *)
Definition mounted : TerrainState := {| terrain1_z := 0; terrain2_z := -2 |}.

Definition speed : Q := 15 # 100.

(** The callback given to [useFrame]: both positions are overwritten
    from [state.clock.elapsedTime]. *)
Definition useFrame (elapsedTime : Q) (st : TerrainState) : TerrainState :=
  {| terrain1_z := Num.js_rem (elapsedTime * speed) 2;
     terrain2_z := Num.js_rem (elapsedTime * speed) 2 - 2 |}.

End Landscape.

(** ** SelectionModel: the [selected] state of [Home], edited by [Controls] *)

Module Selection.

(** What reading a property of [selected] can give: the nested [colors]
    object, a boolean written by a checkbox, [undefined], or a member
    inherited from [Object.prototype] (a function, or the prototype
    itself for [__proto__]). *)
Inductive jsvalue : Type :=
| VUndefined
| VBool (b : bool)
| VColors (c : gmap string string)
| VInherited.

(** [!!v]: objects and functions are truthy. *)
Definition truthy (v : jsvalue) : bool :=
  match v with
  | VUndefined => false
  | VBool b => b
  | VColors _ => true
  | VInherited => true
  end.

(** The property names of [Object.prototype], which every object
    literal inherits. *)
Definition Object_prototype : list string :=
  [ "constructor"; "hasOwnProperty"; "isPrototypeOf";
    "propertyIsEnumerable"; "toLocaleString"; "toString"; "valueOf";
    "__proto__"; "__defineGetter__"; "__defineSetter__";
    "__lookupGetter__"; "__lookupSetter__" ].

(** Does [k] name a member of [Object.prototype]? *)
Definition inherited (k : string) : bool :=
  existsb (String.eqb k) Object_prototype.

(** [selected[k]]: the own property when there is one, else the member
    inherited from [Object.prototype], else [undefined]. *)
Definition get (selected : gmap string jsvalue) (k : string) : jsvalue :=
  match selected !! k with
  | Some v => v
  | None => if inherited k then VInherited else VUndefined
  end.

(** [{...v}]: the own enumerable properties of an object; a primitive,
    a function or [undefined] spreads to nothing. *)
Definition spread (v : jsvalue) : gmap string string :=
  match v with
  | VColors c => c
  | _ => ∅
  end.

(** [v.primary] and [v.edge], the two reads of a colour in the code:
    they throw on [undefined], and are [undefined] on a boolean or a
    function. *)
Definition member (v : jsvalue) (k : string) : result (option string) :=
  match v with
  | VUndefined => TypeError
  | VBool _ => Ok None
  | VColors c => Ok (c !! k)
  | VInherited => Ok None
  end.

(** [React.useState({ colors: { primary: "#e84971", edge: "#39f5e6"} })] *)
Definition initial : gmap string jsvalue :=
  {[ "colors" := VColors (<["primary" := "#e84971"]> {[ "edge" := "#39f5e6" ]}) ]}.

(** [setSelected({...selected, colors: { ...selected.colors, [id]: value } })] *)
Definition updateColor (id value : string) (selected : gmap string jsvalue)
  : gmap string jsvalue :=
  <[ "colors" := VColors (<[ id := value ]> (spread (get selected "colors"))) ]> selected.

(** The [Clear] button: [setSelected({ colors: selected.colors })] *)
Definition clear (selected : gmap string jsvalue) : gmap string jsvalue :=
  {[ "colors" := get selected "colors" ]}.

(** A checkbox: [setSelected({...selected, [panel.id]: !selected[panel.id]})] *)
Definition toggle (id : string) (selected : gmap string jsvalue)
  : gmap string jsvalue :=
  <[ id := VBool (negb (truthy (get selected id))) ]> selected.

(** The events [Controls] can raise. *)
Inductive action : Type :=
| Toggle (id : string)
| SetColor (which value : string)
| Clear.

Definition step (selected : gmap string jsvalue) (a : action) : gmap string jsvalue :=
  match a with
  | Toggle id => toggle id selected
  | SetColor which value => updateColor which value selected
  | Clear => clear selected
  end.

Definition run (acts : list action) (selected : gmap string jsvalue)
  : gmap string jsvalue :=
  foldl step selected acts.


Definition is_Toggle (id : string) (a : action) : bool :=
  match a with Toggle id' => bool_decide (id' = id) | _ => false end.



(** The panel entries of [selected]: everything but [colors]. *)
Definition enabled (selected : gmap string jsvalue) : gmap string jsvalue :=
  delete "colors" selected.

(** The shape [Home] and [Controls] maintain: [colors] holds an object. *)
Definition wf (selected : gmap string jsvalue) : Prop :=
  exists c, selected !! "colors" = Some (VColors c).

End Selection.

(** ** GeometrySampler: [Panel] and [Panels] *)

Module Sampler.

Import Selection.

(** [ledPos]: an array of three numbers. *)
Abbreviation ledPos := (Q * Q * Q)%type.
Definition at0 (p : ledPos) : Q := fst (fst p).
Definition at1 (p : ledPos) : Q := snd (fst p).
Definition at2 (p : ledPos) : Q := snd p.

(** A record of the dataset.  [leds] is [None] when the property is
    missing.  Edge records carry no [id]; the field is never read for
    them. *)
Record panel := { id : string; leds : option (list ledPos) }.

(** [teModel], imported from [data/leds]. *)
Record teModel := { panels : list panel; edges : list panel }.

(** The module constants, gathered so that they can be varied. *)
Record caps := { maxPerPanel : nat; skipLeds : option nat; maxPanels : nat }.

(** [skipLeds = 10], [maxPerPanel = 3000], [maxPanels = 200] *)
Definition source_caps : caps :=
  {| maxPerPanel := 3000; skipLeds := Some 10%nat; maxPanels := 200 |}.

Definition normalScale : Q := 15 # 10.
Definition ledSize : Q := 4 # 1000.
Definition edgeLedSize : Q := 9 # 1000.

(** A [<mesh>] with its sphere and material. *)
Record mesh := { key : nat; position : ledPos; radius : Q; color : option string }.

(** The three assignments of [Panel] that place an LED. *)
Definition transform (p : ledPos) : ledPos :=
  let x := at2 p * normalScale * -1 + (7 # 10) in
  let y := at1 p * normalScale in
  let z := at0 p * normalScale * -1 + 5 in
  (x, y, z).

(** [skipLeds !== false && i % skipLeds != 0] *)
Definition skipped (c : caps) (i : nat) : bool :=
  match skipLeds c with
  | None => false
  | Some k => Num.rem_ne_0 i k
  end.

(** The props of a [<Panel>] element. *)
Record props := { panel_of : panel; ledSize_of : Q; ledColor_of : option string }.

(** The callback of [panel.leds.map] in [Panel]. *)
Definition led (c : caps) (pr : props) (i : nat) (p : ledPos) : option mesh :=
  if (maxPerPanel c <? i)%nat then None
  else if skipped c i then None
  else Some {| key := i; position := transform p;
               radius := ledSize_of pr; color := ledColor_of pr |}.

(** [Panel(props)]: [panel.leds.map] throws when [leds] is missing. *)
Definition Panel (c : caps) (pr : props) : result (list (option mesh)) :=
  match leds (panel_of pr) with
  | None => TypeError
  | Some l => Ok (imap (led c pr) l)
  end.

(** A [<Panel key=... />] element, not yet mounted. *)
Record element := { el_key : nat; el_props : props }.

(** [Object.keys(selected).length > 1 && !!!selected[panel.id]] *)
Definition filtered (selected : gmap string jsvalue) (p : panel) : bool :=
  (1 <? size selected)%nat && negb (truthy (get selected (id p))).

(** The callback of [teModel.panels.map] in [Panels]. *)
Definition panel_child (c : caps) (selected : gmap string jsvalue)
    (primaryColor : option string) (i : nat) (p : panel) : option element :=
  if filtered selected p then None
  else if (maxPanels c <? i)%nat then None
  else Some {| el_key := i;
               el_props := {| panel_of := p; ledSize_of := ledSize;
                              ledColor_of := primaryColor |} |}.

(** The callback of [teModel.edges.map] in [Panels]. *)
Definition edge_child (c : caps) (edgeColor : option string)
    (i : nat) (e : panel) : option element :=
  if (maxPanels c <? i)%nat then None
  else Some {| el_key := i;
               el_props := {| panel_of := e; ledSize_of := edgeLedSize;
                              ledColor_of := edgeColor |} |}.

(** [Panels(props)]: the two child arrays of the [<group>]. *)
Definition Panels (c : caps) (m : teModel) (selected : gmap string jsvalue)
  : result (list (option element) * list (option element)) :=
  primaryColor ← member (get selected "colors") "primary";
  edgeColor ← member (get selected "colors") "edge";
  Ok (imap (panel_child c selected primaryColor) (panels m),
      imap (edge_child c edgeColor) (edges m)).

(** Mounting the children: React calls [Panel] on every element, skips
    the empty slots of both arrays, and lets an exception escape. *)
Definition mount_one (c : caps) (e : element) : result (nat * list mesh) :=
  ms ← Panel c (el_props e);
  Ok (el_key e, compact ms).

Fixpoint mount (c : caps) (children : list (option element))
  : result (list (nat * list mesh)) :=
  match children with
  | [] => Ok []
  | None :: rest => mount c rest
  | Some e :: rest =>
      g ← mount_one c e;
      gs ← mount c rest;
      Ok (g :: gs)
  end.

(** What reaches the scene: for the panels and for the edges, the
    mounted records in order, each with its key and its meshes. *)
Definition render (c : caps) (m : teModel) (selected : gmap string jsvalue)
  : result (list (nat * list mesh) * list (nat * list mesh)) :=
  ch ← Panels c m selected;
  ps ← mount c (fst ch);
  es ← mount c (snd ch);
  Ok (ps, es).

(** Is the record at index [i] of a child array mounted? *)
Definition shown (children : list (option element)) (i : nat) : bool :=
  match children !! i with
  | Some (Some _) => true
  | _ => false
  end.

Definition panel_shown (c : caps) (m : teModel)
    (selected : gmap string jsvalue) (i : nat) : bool :=
  match Panels c m selected with
  | Ok ch => shown (fst ch) i
  | TypeError => false
  end.

Definition edge_shown (c : caps) (m : teModel)
    (selected : gmap string jsvalue) (i : nat) : bool :=
  match Panels c m selected with
  | Ok ch => shown (snd ch) i
  | TypeError => false
  end.

(** The meshes [Panel] emits, empty slots dropped. *)
Definition emitted (c : caps) (pr : props) : result (list mesh) :=
  ms ← Panel c pr; Ok (compact ms).

End Sampler.

(** ** Sequences of events *)

Module Events.

Import Selection.

Definition is_SetColor (a : action) : bool :=
  match a with SetColor _ _ => true | _ => false end.

(** The colour edits of [acts], in order. *)
Definition color_edits (acts : list action) : list action :=
  List.filter is_SetColor acts.

(** No click on a checkbox whose panel id is "colors". *)
Definition spares_colors (acts : list action) : bool :=
  forallb (fun a => negb (is_Toggle "colors" a)) acts.

End Events.

(** ** Controls: what the inputs show *)

Module Controls.

Import Selection Sampler.

(** [checked={!!selected[panel.id]}] *)
Definition checked (selected : gmap string jsvalue) (p : panel) : bool :=
  truthy (get selected (id p)).

(** What [Controls] puts on screen: one labelled checkbox per panel, in
    the order of the dataset, and the text of the two colour fields. *)
Record view := { checkboxes : list (string * bool);
                 primary_field : option string;
                 edge_field : option string }.

(** [Controls(props)]: [selected.colors["primary"]] and
    [selected.colors["edge"]] throw when [colors] is [undefined]. *)
Definition Controls (m : teModel) (selected : gmap string jsvalue)
  : result view :=
  let boxes := (fun p => (id p, checked selected p)) <$> panels m in
  primary ← member (get selected "colors") "primary";
  edge ← member (get selected "colors") "edge";
  Ok {| checkboxes := boxes; primary_field := primary; edge_field := edge |}.

End Controls.

(** ** Home: the two pieces of state and the events that change them *)

Module Home.

Import Selection Sampler.

(** [const [edit, setEdit]] and [const [selected, setSelected]] *)
Record state := { edit : bool; selected : gmap string jsvalue }.

(** [React.useState(false)] and the initial selection. *)
Definition initial : state :=
  {| edit := false; selected := Selection.initial |}.

(** The two colour inputs of [Controls]. *)
Inductive field : Type := Primary | Edge.

Definition field_name (f : field) : string :=
  match f with Primary => "primary" | Edge => "edge" end.

(** What the user can do: click the [Edit] label, the [Clear] button or
    the checkbox of the panel at index [i], or type in a colour input. *)
Inductive event : Type :=
| ClickEdit
| ClickClear
| ClickPanel (i : nat)
| ChangeColor (f : field) (value : string).

(** The handlers [Controls] attaches.  There is a checkbox for each
    panel of the dataset and for nothing else. *)
Definition handle (m : teModel) (s : gmap string jsvalue) (ev : event)
  : gmap string jsvalue :=
  match ev with
  | ClickEdit => s
  | ClickClear => clear s
  | ClickPanel i =>
      match panels m !! i with
      | Some p => toggle (id p) s
      | None => s
      end
  | ChangeColor f value => updateColor (field_name f) value s
  end.

(** [setEdit(!!!edit)] for the label; [{edit && <Controls ... />}]
    puts the other inputs on screen in edit mode only. *)
Definition step (m : teModel) (st : state) (ev : event) : state :=
  match ev with
  | ClickEdit => {| edit := negb (edit st); selected := selected st |}
  | _ =>
      if edit st
      then {| edit := true; selected := handle m (selected st) ev |}
      else st
  end.

Definition run (m : teModel) (evs : list event) (st : state) : state :=
  foldl (step m) st evs.

(** The shape of [selected] that [Home] keeps: [colors] is an object
    with exactly the properties [primary] and [edge], and every other
    property is a boolean kept under the id of a panel of the dataset. *)
Definition shape (m : teModel) (s : gmap string jsvalue) : Prop :=
  (exists col : gmap string string,
      s !! "colors" = Some (VColors col)
      /\ is_Some (col !! "primary") /\ is_Some (col !! "edge")
      /\ forall k, is_Some (col !! k) -> k = "primary" \/ k = "edge")
  /\ (forall k v, k ≠ "colors" -> s !! k = Some v ->
        (exists b, v = VBool b) /\ k ∈ (id <$> panels m)).

End Home.

(** ** Recolouring *)

Module Paint.

Import Sampler.

(** The same mesh with another material colour. *)
Definition paint (col : option string) (ms : mesh) : mesh :=
  {| key := key ms; position := position ms; radius := radius ms; color := col |}.

(** The same element, to be drawn with the colour [col]. *)
Definition recolor (col : option string) (e : element) : element :=
  {| el_key := el_key e;
     el_props := {| panel_of := panel_of (el_props e);
                    ledSize_of := ledSize_of (el_props e);
                    ledColor_of := col |} |}.

(** The same groups, every mesh with the colour [col]. *)
Definition repaint (col : option string) (gs : list (nat * list mesh))
  : list (nat * list mesh) :=
  (fun g : nat * list mesh => (fst g, paint col <$> snd g)) <$> gs.

End Paint.

(** ** Datasets and constants used in examples *)

Module Fixtures.

Import Sampler.

(** A record with [n] LEDs along the first axis. *)
Definition strip (name : string) (n : nat) : panel :=
  {| id := name;
     leds := Some ((fun i => (inject_Z (Z.of_nat i), 0, 0)) <$> seq 0 n) |}.

(** [n] panels "P0", "P1", ... and [n] edges, one LED each. *)
Definition many (n : nat) : teModel :=
  {| panels := (fun i => strip ("P" +:+ pretty i) 1) <$> seq 0 n;
     edges := replicate n (strip EmptyString 1) |}.

(** One panel of three LEDs, no edges. *)
Definition three_leds : teModel :=
  {| panels := [ {| id := "P1";
                    leds := Some [(0, 0, 0); (1, 1, 1); (2, 2, 2)] |} ];
     edges := [] |}.


(** A sound panel followed by one whose [leds] property is missing. *)
Definition no_leds : teModel :=
  {| panels := [ strip "P0" 1; {| id := "P1"; leds := None |} ]; edges := [] |}.

(** The props [Panels] gives to a panel record. *)
Definition primary_props (p : panel) : props :=
  {| panel_of := p; ledSize_of := ledSize; ledColor_of := Some "#e84971" |}.

End Fixtures.

(** * Part II: properties *)

(** Case split on the index comparisons of the caps. *)
Ltac cap_cases :=
  repeat match goal with
         | |- context [(?a <? ?b)%nat] => destruct (Nat.ltb_spec a b)
         | |- context [(?a <=? ?b)%nat] => destruct (Nat.leb_spec a b)
         end;
  try done; try lia.

(** ** Arithmetic of the remainder *)

Lemma Qtrunc_nonneg (q : Q) : 0 <= q -> Num.Qtrunc q = Qfloor q.
Proof.
  destruct q as [n d]. unfold Qle, Num.Qtrunc, Qfloor. simpl. intros Hn.
  apply Z.quot_div_nonneg; lia.
Qed.

Lemma js_rem_2_bounds (a : Q) :
  0 <= a -> 0 <= Num.js_rem a 2 /\ Num.js_rem a 2 < 2.
Proof.
  intros Ha. unfold Num.js_rem.
  assert (Hh : 0 <= a / 2).
  { apply Qle_shift_div_l; [reflexivity|]. now rewrite Qmult_0_l. }
  rewrite (Qtrunc_nonneg _ Hh).
  pose proof (Qfloor_le (a / 2)) as Hlo.
  pose proof (Qlt_floor (a / 2)) as Hhi.
  rewrite inject_Z_plus in Hhi.
  set (f := inject_Z (Qfloor (a / 2))) in *.
  assert (Ea : a == 2 * (a / 2)) by (field).
  split.
  - apply (Qmult_le_l _ _ 2) in Hlo; [|reflexivity].
    rewrite <- Ea in Hlo.
    apply (Qplus_le_l _ _ (2 * f)). ring_simplify. exact Hlo.
  - apply (Qmult_lt_l _ _ 2) in Hhi; [|reflexivity].
    rewrite <- Ea in Hhi.
    apply (Qplus_lt_l _ _ (2 * f)). ring_simplify.
    ring_simplify in Hhi. exact Hhi.
Qed.

(** ** TerrainLoop *)

Section TerrainLoop.

Import Landscape.

Variable st : TerrainState.

(** The frame callback does not read the previous positions. *)
Lemma useFrame_overwrites (t : Q) (st' : TerrainState) :
  useFrame t st = useFrame t st'.
Proof. reflexivity. Qed.

Lemma useFrame_gap (t : Q) :
  terrain1_z (useFrame t st) - terrain2_z (useFrame t st) == 2.
Proof. unfold useFrame; simpl. ring. Qed.

(** C1, as amended: for every elapsed time [t >= 0] the two offsets
    written by the frame callback differ by exactly 2; the first lies in
    [0, 2) and the second in [-2, 0). *)
Theorem terrain_offsets (t : Q) :
  0 <= t ->
  let st' := useFrame t st in
  terrain1_z st' - terrain2_z st' == 2
  /\ (0 <= terrain1_z st' /\ terrain1_z st' < 2)
  /\ (-2 <= terrain2_z st' /\ terrain2_z st' < 0).
Proof.
  intros Ht st'. split; [apply useFrame_gap|].
  assert (Hts : 0 <= t * speed).
  { apply Qmult_le_0_compat; [exact Ht | discriminate]. }
  destruct (js_rem_2_bounds _ Hts) as [Hlo Hhi].
  subst st'. unfold useFrame; simpl.
  set (r := Num.js_rem (t * speed) 2) in *.
  repeat split; try assumption.
  - apply (Qplus_le_l _ _ 2). ring_simplify. exact Hlo.
  - apply (Qplus_lt_l _ _ 2). ring_simplify. exact Hhi.
Qed.

End TerrainLoop.

(** At 12.5 seconds the first mesh is at 1.875 and the second at -0.125. *)
Lemma terrain_offsets_witness :
  0 <= (25 # 2) /\
  let st' := Landscape.useFrame (25 # 2) Landscape.mounted in
  Landscape.terrain1_z st' - Landscape.terrain2_z st' == 2
  /\ (0 <= Landscape.terrain1_z st' /\ Landscape.terrain1_z st' < 2)
  /\ (-2 <= Landscape.terrain2_z st' /\ Landscape.terrain2_z st' < 0).
Proof.
  split; [discriminate|].
  apply (terrain_offsets Landscape.mounted (25 # 2)). discriminate.
Defined.

(** C1, as stated, fails at [t = 0]: the first offset is 0, which is not
    in [-2, 0). *)
Lemma terrain_offsets_counterexample :
  0 <= 0 /\
  let st' := Landscape.useFrame 0 Landscape.mounted in
  ~ (Landscape.terrain1_z st' - Landscape.terrain2_z st' == 2
     /\ (-2 <= Landscape.terrain1_z st' /\ Landscape.terrain1_z st' < 0)
     /\ (-2 <= Landscape.terrain2_z st' /\ Landscape.terrain2_z st' < 0)).
Proof.
  split; [discriminate|].
  intros st' (_ & (_ & Hlt) & _). vm_compute in Hlt. discriminate.
Qed.

(** ** SelectionModel *)

Section SelectionFacts.

Import Selection.

Implicit Types (s : gmap string jsvalue) (k id which value : string).

Lemma get_insert_eq s k (v : jsvalue) : get (<[k := v]> s) k = v.
Proof. unfold get. by rewrite lookup_insert_eq. Qed.

Lemma get_insert_ne s k k' (v : jsvalue) :
  k ≠ k' -> get (<[k := v]> s) k' = get s k'.
Proof. intros Hne. unfold get. by rewrite lookup_insert_ne. Qed.


Lemma clear_enabled s : enabled (clear s) = ∅.
Proof. unfold enabled, clear. apply delete_singleton_eq. Qed.

Lemma clear_colors s : get (clear s) "colors" = get s "colors".
Proof. unfold clear, get at 1. by rewrite lookup_singleton_eq. Qed.

Lemma updateColor_enabled which value s :
  enabled (updateColor which value s) = enabled s.
Proof. unfold enabled, updateColor. apply delete_insert_eq. Qed.

Lemma updateColor_colors which value s :
  get (updateColor which value s) "colors"
  = VColors (<[which := value]> (spread (get s "colors"))).
Proof. unfold updateColor. apply get_insert_eq. Qed.

Lemma toggle_enabled_other id k s :
  k ≠ id -> toggle id s !! k = s !! k.
Proof. intros Hne. unfold toggle. by rewrite lookup_insert_ne. Qed.

Lemma clear_updateColor which value s :
  updateColor which value (clear s) = clear (updateColor which value s).
Proof.
  unfold updateColor at 1. rewrite clear_colors.
  unfold clear at 1. rewrite insert_singleton_eq.
  unfold clear. by rewrite updateColor_colors.
Qed.


Lemma wf_clear s : wf s -> wf (clear s).
Proof.
  intros [c Hc]. exists c. unfold clear, get. rewrite Hc.
  apply lookup_singleton_eq.
Qed.



(** With [colors] in place, [Object.keys(selected).length > 1] says
    that a panel entry exists. *)
Lemma size_enabled s :
  is_Some (s !! "colors") -> size s = S (size (enabled s)).
Proof.
  intros [v Hv]. unfold enabled.
  rewrite <- (insert_delete_id s "colors" v) at 1 by done.
  rewrite map_size_insert_None; [done | apply lookup_delete_eq].
Qed.


End SelectionFacts.

(** C8: [clear] empties the panel entries and leaves [colors] as it
    was; [updateColor] leaves every panel entry as it was, sets the
    named colour and leaves the other colours as they were; clearing and
    then setting the primary colour to "#abcdef" gives no panel entries
    and that primary colour, and the two calls commute. *)
Theorem clear_setColor_frame (s : gmap string Selection.jsvalue)
    (which value : string) :
  (Selection.enabled (Selection.clear s) = ∅
   /\ Selection.get (Selection.clear s) "colors" = Selection.get s "colors")
  /\ (Selection.enabled (Selection.updateColor which value s) = Selection.enabled s
      /\ Selection.member
           (Selection.get (Selection.updateColor which value s) "colors") which
         = Ok (Some value)
      /\ delete which
           (Selection.spread
              (Selection.get (Selection.updateColor which value s) "colors"))
         = delete which (Selection.spread (Selection.get s "colors")))
  /\ (let s' := Selection.updateColor "primary" "#abcdef" (Selection.clear s) in
      Selection.enabled s' = ∅
      /\ Selection.member (Selection.get s' "colors") "primary" = Ok (Some "#abcdef")
      /\ s' = Selection.clear (Selection.updateColor "primary" "#abcdef" s)).
Proof.
  split; [|split].
  - split; [apply clear_enabled | apply clear_colors].
  - split; [apply updateColor_enabled|].
    rewrite updateColor_colors. simpl. split.
    + by rewrite lookup_insert_eq.
    + apply delete_insert_eq.
  - intros s'. subst s'. split; [|split].
    + rewrite updateColor_enabled. apply clear_enabled.
    + rewrite updateColor_colors. simpl. by rewrite lookup_insert_eq.
    + apply clear_updateColor.
Qed.




(** ** GeometrySampler: which records are mounted *)

Section SamplerFacts.

Import Selection Sampler.

Implicit Types (s : gmap string jsvalue) (c : caps) (m : teModel) (p e : panel).

Lemma Panels_wf c m s (col : gmap string string) :
  s !! "colors" = Some (VColors col) ->
  Panels c m s
  = Ok (imap (panel_child c s (col !! "primary")) (panels m),
        imap (edge_child c (col !! "edge")) (edges m)).
Proof. intros Hc. unfold Panels, get. by rewrite Hc. Qed.

Lemma Panels_Ok c m s : wf s -> exists ch, Panels c m s = Ok ch.
Proof. intros [col Hc]. eexists. by apply Panels_wf. Qed.

(** Whether a panel is mounted is decided by the record and its index. *)
Lemma panel_shown_eq c m s i p :
  wf s -> panels m !! i = Some p ->
  panel_shown c m s i = negb (filtered s p) && (i <=? maxPanels c)%nat.
Proof.
  intros [col Hc] Hp. unfold panel_shown. rewrite (Panels_wf _ _ _ _ Hc).
  simpl. unfold shown. rewrite list_lookup_imap, Hp. simpl.
  unfold panel_child. destruct (filtered s p); simpl; [done|]. cap_cases.
Qed.

(** Whether an edge is mounted is decided by its index. *)
Lemma edge_shown_eq c m s j e :
  wf s -> edges m !! j = Some e ->
  edge_shown c m s j = (j <=? maxPanels c)%nat.
Proof.
  intros [col Hc] He. unfold edge_shown. rewrite (Panels_wf _ _ _ _ Hc).
  simpl. unfold shown. rewrite list_lookup_imap, He. simpl.
  unfold edge_child. cap_cases.
Qed.


Lemma filtered_updateColor which value s p :
  wf s -> filtered (updateColor which value s) p = filtered s p.
Proof.
  intros [col Hc]. unfold filtered, updateColor.
  rewrite map_size_insert_Some by (by rewrite Hc). f_equal. f_equal.
  destruct (decide (id p = "colors")) as [-> | Hne].
  - rewrite get_insert_eq. unfold get. by rewrite Hc.
  - by rewrite get_insert_ne.
Qed.

(** Elements carry the index of their record as key. *)
Lemma panel_child_key c s col i p el :
  panel_child c s col i p = Some el -> el_key el = i /\ panel_of (el_props el) = p.
Proof.
  unfold panel_child. destruct (filtered s p); [done|].
  destruct (maxPanels c <? i)%nat; [done|]. by intros [= <-].
Qed.

Lemma edge_child_key c col i e el :
  edge_child c col i e = Some el -> el_key el = i /\ panel_of (el_props el) = e.
Proof.
  unfold edge_child. destruct (maxPanels c <? i)%nat; [done|]. by intros [= <-].
Qed.

(** Mounting fails exactly when some element has no [leds]. *)
Lemma mount_TypeError c (ch : list (option element)) :
  mount c ch = TypeError
  <-> exists i el, ch !! i = Some (Some el) /\ leds (panel_of (el_props el)) = None.
Proof.
  induction ch as [| [el |] rest IH]; simpl.
  - split; [done|]. by intros (i & el & Hl & _).
  - unfold mount_one, Panel.
    destruct (leds (panel_of (el_props el))) as [l |] eqn:El; simpl.
    + destruct (mount c rest) as [gs |] eqn:Er; simpl.
      * split; [done|]. intros (i & el' & Hl & Hn).
        destruct i as [| i]; simpl in Hl.
        -- injection Hl as <-. congruence.
        -- assert (Hx : Ok gs = TypeError) by (apply IH; eauto).
           discriminate Hx.
      * split; [|done]. intros _.
        destruct (proj1 IH eq_refl) as (i & el' & Hl & Hn).
        exists (S i), el'. done.
    + split; [|done]. intros _. exists 0%nat, el. done.
  - rewrite IH. split.
    + intros (i & el & Hl & Hn). exists (S i), el. done.
    + intros (i & el & Hl & Hn). destruct i as [| i]; simpl in Hl; [done|].
      eauto.
Qed.


End SamplerFacts.

Section Rendered.

Import Selection Sampler.



End Rendered.




(** ** GeometrySampler: what [Panel] emits *)

Section PanelFacts.

Import Sampler.

Implicit Types (c : caps) (pr : props) (l : list ledPos).

Lemma Panel_Ok c pr l :
  leds (panel_of pr) = Some l -> Panel c pr = Ok (imap (led c pr) l).
Proof. intros Hl. unfold Panel. by rewrite Hl. Qed.

Lemma led_Some c pr i (q : ledPos) (ms : mesh) :
  led c pr i q = Some ms ->
  (i <= maxPerPanel c)%nat /\ skipped c i = false
  /\ ms = {| key := i; position := transform q;
             radius := ledSize_of pr; color := ledColor_of pr |}.
Proof.
  unfold led. destruct (Nat.ltb_spec (maxPerPanel c) i); [done|].
  destruct (skipped c i); [done|]. intros [= <-]. split; [lia|]. by split.
Qed.

Lemma transform_formula (x y z : Q) :
  let '(rx, ry, rz) := transform (x, y, z) in
  rx == - z * normalScale + (7 # 10)
  /\ ry == y * normalScale
  /\ rz == - x * normalScale + 5.
Proof. unfold transform, at0, at1, at2; simpl. repeat split; ring. Qed.

End PanelFacts.

(** C7: every LED that [Panel] emits is placed at the image of its raw
    coordinate [(x, y, z)] under [transform], a function of the triple
    alone, whose components are [-z * normalScale + 0.7],
    [y * normalScale] and [-x * normalScale + 5], with
    [normalScale = 1.5]. *)
Theorem led_position (c : Sampler.caps) (pr : Sampler.props)
    (l : list Sampler.ledPos) (ms : list (option Sampler.mesh))
    (i : nat) (x y z : Q) (ld : Sampler.mesh) :
  Sampler.leds (Sampler.panel_of pr) = Some l ->
  l !! i = Some (x, y, z) ->
  Sampler.Panel c pr = Ok ms ->
  ms !! i = Some (Some ld) ->
  Sampler.position ld = Sampler.transform (x, y, z)
  /\ (let '(rx, ry, rz) := Sampler.position ld in
      rx == - z * Sampler.normalScale + (7 # 10)
      /\ ry == y * Sampler.normalScale
      /\ rz == - x * Sampler.normalScale + 5)
  /\ Sampler.normalScale == 3 # 2.
Proof.
  intros Hl Hi HP Hm. rewrite (Panel_Ok _ _ _ Hl) in HP.
  injection HP as <-. rewrite list_lookup_imap, Hi in Hm. simpl in Hm.
  injection Hm as Hm. apply led_Some in Hm as (_ & _ & ->). simpl.
  split; [done|]. split; [apply transform_formula | reflexivity].
Qed.

(** The LED at index 0 of the three-LED panel, moved to dataset
    position (1, 2, 3), lands at (-3.8, 3, 3.5). *)
Lemma led_position_witness :
  let p := {| Sampler.id := "P1"; Sampler.leds := Some [(1, 2, 3)] |} in
  let pr := Fixtures.primary_props p in
  let ld := {| Sampler.key := 0; Sampler.position := Sampler.transform (1, 2, 3);
               Sampler.radius := Sampler.ledSize; Sampler.color := Some "#e84971" |} in
  Sampler.leds (Sampler.panel_of pr) = Some [(1, 2, 3)]
  /\ [(1, 2, 3)] !! 0%nat = Some (1, 2, 3)
  /\ Sampler.Panel Sampler.source_caps pr = Ok [Some ld]
  /\ [Some ld] !! 0%nat = Some (Some ld)
  /\ Sampler.position ld = Sampler.transform (1, 2, 3)
  /\ (let '(rx, ry, rz) := Sampler.position ld in
      rx == - 3 * Sampler.normalScale + (7 # 10)
      /\ ry == 2 * Sampler.normalScale
      /\ rz == - 1 * Sampler.normalScale + 5)
  /\ Sampler.normalScale == 3 # 2.
Proof.
  intros p pr ld.
  assert (H1 : Sampler.leds (Sampler.panel_of pr) = Some [(1, 2, 3)]) by reflexivity.
  assert (H2 : [(1, 2, 3)] !! 0%nat = Some (1, 2, 3)) by reflexivity.
  assert (H3 : Sampler.Panel Sampler.source_caps pr = Ok [Some ld]) by reflexivity.
  assert (H4 : [Some ld] !! 0%nat = Some (Some ld)) by reflexivity.
  repeat (split; [assumption|]).
  exact (led_position Sampler.source_caps pr _ _ 0 1 2 3 ld H1 H2 H3 H4).
Defined.

(** ** GeometrySampler: records without [leds] *)

Section MissingLeds.

Import Selection Sampler.

Lemma shown_lookup (ch : list (option element)) (i : nat) :
  shown ch i = true <-> exists el, ch !! i = Some (Some el).
Proof.
  unfold shown. destruct (ch !! i) as [[el |] |]; split; try done.
  - eauto.
  - by intros [el ?].
  - by intros [el ?].
Qed.

Lemma panel_children_TypeError (c : caps) (m : teModel)
    (s : gmap string jsvalue) (col : gmap string string) :
  s !! "colors" = Some (VColors col) ->
  mount c (imap (panel_child c s (col !! "primary")) (panels m)) = TypeError
  <-> exists i p, panels m !! i = Some p /\ panel_shown c m s i = true
                  /\ leds p = None.
Proof.
  intros Hc. rewrite mount_TypeError. unfold panel_shown.
  rewrite (Panels_wf _ _ _ _ Hc). simpl. split.
  - intros (i & el & Hi & Hn). pose proof Hi as Hi'.
    apply list_lookup_imap_Some in Hi as (p & Hp & Hel). symmetry in Hel.
    apply panel_child_key in Hel as [_ <-].
    exists i, (panel_of (el_props el)). split; [done|]. split; [|done].
    apply shown_lookup. eauto.
  - intros (i & p & Hp & Hs & Hn). apply shown_lookup in Hs as [el Hi].
    exists i, el. split; [done|].
    apply list_lookup_imap_Some in Hi as (p' & Hp' & Hel). symmetry in Hel.
    apply panel_child_key in Hel as [_ ->]. congruence.
Qed.

Lemma edge_children_TypeError (c : caps) (m : teModel)
    (s : gmap string jsvalue) (col : gmap string string) :
  s !! "colors" = Some (VColors col) ->
  mount c (imap (edge_child c (col !! "edge")) (edges m)) = TypeError
  <-> exists j e, edges m !! j = Some e /\ edge_shown c m s j = true
                  /\ leds e = None.
Proof.
  intros Hc. rewrite mount_TypeError. unfold edge_shown.
  rewrite (Panels_wf _ _ _ _ Hc). simpl. split.
  - intros (i & el & Hi & Hn). pose proof Hi as Hi'.
    apply list_lookup_imap_Some in Hi as (p & Hp & Hel). symmetry in Hel.
    apply edge_child_key in Hel as [_ <-].
    exists i, (panel_of (el_props el)). split; [done|]. split; [|done].
    apply shown_lookup. eauto.
  - intros (i & p & Hp & Hs & Hn). apply shown_lookup in Hs as [el Hi].
    exists i, el. split; [done|].
    apply list_lookup_imap_Some in Hi as (p' & Hp' & Hel). symmetry in Hel.
    apply edge_child_key in Hel as [_ ->]. congruence.
Qed.

Lemma render_TypeError (c : caps) (m : teModel) (s : gmap string jsvalue) :
  wf s ->
  render c m s = TypeError
  <-> (exists i p, panels m !! i = Some p /\ panel_shown c m s i = true
                   /\ leds p = None)
      \/ (exists j e, edges m !! j = Some e /\ edge_shown c m s j = true
                      /\ leds e = None).
Proof.
  intros [col Hc].
  rewrite <- (panel_children_TypeError c m s col Hc).
  rewrite <- (edge_children_TypeError c m s col Hc).
  unfold render. rewrite (Panels_wf _ _ _ _ Hc). simpl.
  destruct (mount c (imap (panel_child c s (col !! "primary")) (panels m)));
    simpl; [|tauto].
  destruct (mount c (imap (edge_child c (col !! "edge")) (edges m)));
    simpl; [|tauto].
  split; [done|]. by intros [? | ?].
Qed.

End MissingLeds.

(** C6, as amended: a record without [leds] is not skipped.  With
    [colors] in place in [selected], rendering throws exactly when some
    mounted panel or edge has no [leds], and then nothing is rendered;
    such a record is harmless only when the selection filter or the
    index cap keeps it from being mounted.  Whether a record is mounted
    depends on the record and on its own index alone, so the cap counts
    positions in the dataset, not mounted records. *)
Theorem missing_leds_throws (c : Sampler.caps) (m : Sampler.teModel)
    (s : gmap string Selection.jsvalue) :
  Selection.wf s ->
  (Sampler.render c m s = TypeError
   <-> (exists i p, Sampler.panels m !! i = Some p
                    /\ Sampler.panel_shown c m s i = true
                    /\ Sampler.leds p = None)
       \/ (exists j e, Sampler.edges m !! j = Some e
                       /\ Sampler.edge_shown c m s j = true
                       /\ Sampler.leds e = None))
  /\ (forall i p, Sampler.panels m !! i = Some p ->
        Sampler.panel_shown c m s i
        = negb (Sampler.filtered s p) && (i <=? Sampler.maxPanels c)%nat)
  /\ (forall j e, Sampler.edges m !! j = Some e ->
        Sampler.edge_shown c m s j = (j <=? Sampler.maxPanels c)%nat).
Proof.
  intros Hwf. split; [by apply render_TypeError|]. split.
  - intros i p Hp. by apply panel_shown_eq.
  - intros j e He. by apply (edge_shown_eq _ _ _ _ e).
Qed.

(** In the initial state the panel "P1" without [leds] is mounted, and
    rendering throws. *)
Lemma missing_leds_throws_witness :
  Selection.wf Selection.initial
  /\ Sampler.render Sampler.source_caps Fixtures.no_leds Selection.initial
     = TypeError.
Proof.
  assert (Hwf : Selection.wf Selection.initial) by (eexists; reflexivity).
  split; [exact Hwf|].
  apply (proj1 (missing_leds_throws Sampler.source_caps Fixtures.no_leds
                  Selection.initial Hwf)).
  left. exists 1%nat, {| Sampler.id := "P1"; Sampler.leds := None |}.
  repeat split.
Defined.

(** C6, as stated, fails: with a sound panel "P0" followed by a panel
    "P1" without [leds], rendering throws, and "P0" is not rendered
    either. *)
Lemma missing_leds_counterexample :
  Sampler.render Sampler.source_caps Fixtures.no_leds Selection.initial
  = TypeError
  /\ ~ (exists out,
          Sampler.render Sampler.source_caps Fixtures.no_leds Selection.initial
          = Ok out).
Proof.
  assert (H : Sampler.render Sampler.source_caps Fixtures.no_leds Selection.initial
              = TypeError) by (vm_compute; reflexivity).
  split; [exact H|]. intros [out Ho]. rewrite H in Ho. discriminate Ho.
Qed.

(** ** GeometrySampler: the caps *)

Section Caps.

Import Selection Sampler.

Lemma rem_ne_0_pos (n k : nat) :
  (0 < k)%nat -> Num.rem_ne_0 n k = negb (n mod k =? 0)%nat.
Proof. destruct k; [lia | done]. Qed.

Lemma ceil_div_S (n k : nat) :
  (0 < k)%nat ->
  Num.ceil_div (S n) k
  = (Num.ceil_div n k + (if Num.rem_ne_0 n k then 0 else 1))%nat.
Proof.
  intros Hk. rewrite (rem_ne_0_pos _ _ Hk). unfold Num.ceil_div.
  pose proof (Nat.div_mod_eq n k) as Hn.
  pose proof (Nat.mod_upper_bound n k ltac:(lia)) as Hr.
  set (q := (n / k)%nat) in *. set (r := (n mod k)%nat) in *.
  destruct (Nat.eqb_spec r 0) as [Hz | Hz]; cbn [negb].
  - rewrite <- (Nat.div_unique (S n + (k - 1)) k (S q) 0) by lia.
    rewrite <- (Nat.div_unique (n + (k - 1)) k q (k - 1)) by lia. lia.
  - rewrite <- (Nat.div_unique (S n + (k - 1)) k (S q) r) by lia.
    rewrite <- (Nat.div_unique (n + (k - 1)) k (S q) (r - 1)) by lia. lia.
Qed.

Lemma compact_imap_snoc {A B} (f : nat -> A -> option B) (l : list A) (x : A) :
  length (compact (imap f (l ++ [x])))
  = (length (compact (imap f l))
     + match f (length l) x with Some _ => 1 | None => 0 end)%nat.
Proof.
  rewrite imap_app. unfold compact. rewrite omap_app, length_app. simpl.
  rewrite Nat.add_0_r. by destruct (f (length l) x).
Qed.

(** [Panel] keeps the indices [0 .. maxPerPanel], that is
    [maxPerPanel + 1] coordinates, before the skip. *)
Lemma emitted_count_skip (c : caps) (pr : props) (l : list ledPos) (k : nat) :
  skipLeds c = Some k -> (0 < k)%nat ->
  length (compact (imap (led c pr) l))
  = Num.ceil_div (min (length l) (S (maxPerPanel c))) k.
Proof.
  intros Hs Hk. induction l as [| x l IH] using rev_ind.
  - simpl. unfold Num.ceil_div. symmetry. apply Nat.div_small. lia.
  - rewrite compact_imap_snoc, IH, length_app. simpl.
    unfold led, skipped. rewrite Hs.
    destruct (Nat.ltb_spec (maxPerPanel c) (length l)) as [Hgt | Hle].
    + rewrite !Nat.min_r by lia. lia.
    + rewrite !Nat.min_l by lia.
      replace (length l + 1)%nat with (S (length l)) by lia.
      rewrite (ceil_div_S _ _ Hk). by destruct (Num.rem_ne_0 (length l) k).
Qed.

Lemma emitted_count_noskip (c : caps) (pr : props) (l : list ledPos) :
  skipLeds c = None ->
  length (compact (imap (led c pr) l)) = min (length l) (S (maxPerPanel c)).
Proof.
  intros Hs. induction l as [| x l IH] using rev_ind; [done|].
  rewrite compact_imap_snoc, IH, length_app. simpl.
  unfold led, skipped. rewrite Hs.
  destruct (Nat.ltb_spec (maxPerPanel c) (length l)); lia.
Qed.

(** [Panels] keeps the edges at the indices [0 .. maxPanels], that is
    [maxPanels + 1] records. *)
Lemma edges_mounted_count (c : caps) (col : option string) (l : list panel) :
  length (compact (imap (edge_child c col) l)) = min (length l) (S (maxPanels c)).
Proof.
  induction l as [| x l IH] using rev_ind; [done|].
  rewrite compact_imap_snoc, IH, length_app. simpl. unfold edge_child.
  destruct (Nat.ltb_spec (maxPanels c) (length l)); lia.
Qed.

(** The same for the panels when nothing is filtered. *)
Lemma panels_mounted_count (c : caps) (s : gmap string jsvalue)
    (col : option string) (l : list panel) :
  (forall p, p ∈ l -> filtered s p = false) ->
  length (compact (imap (panel_child c s col) l)) = min (length l) (S (maxPanels c)).
Proof.
  induction l as [| x l IH] using rev_ind; [done|]. intros Hf.
  rewrite compact_imap_snoc, IH, length_app.
  2:{ intros p Hp. apply Hf. apply elem_of_app. by left. }
  simpl. unfold panel_child. rewrite (Hf x).
  2:{ apply elem_of_app. right. by apply list_elem_of_singleton. }
  destruct (Nat.ltb_spec (maxPanels c) (length l)); lia.
Qed.

End Caps.

(** ** GeometrySampler: the kept records stay in order *)

Section Order.

Import Sampler.

(** When a callback keeps or drops by index alone, what is left is the
    increasing list of the kept indices. *)
Lemma compact_imap_indices {A B} (f : nat -> A -> option B)
    (keep : nat -> bool) (ix : B -> nat) (l : list A) :
  (forall i x, keep i = false -> f i x = None) ->
  (forall i x, keep i = true -> exists y, f i x = Some y /\ ix y = i) ->
  ix <$> compact (imap f l)
  = filter (fun i => Is_true (keep i)) (seq 0 (length l)).
Proof.
  intros Hdrop Hkeep. induction l as [| x l IH] using rev_ind; [done|].
  rewrite imap_app. unfold compact in *.
  rewrite omap_app, fmap_app, IH, length_app. simpl.
  rewrite Nat.add_1_r, seq_S, filter_app, Nat.add_0_r. f_equal. simpl.
  destruct (keep (length l)) eqn:Hk.
  - destruct (Hkeep _ x Hk) as (y & -> & Hy). simpl.
    rewrite filter_cons_True by (by rewrite Hk). by rewrite Hy.
  - rewrite (Hdrop _ x Hk). simpl.
    rewrite filter_cons_False; [done | by apply Is_true_false_2].
Qed.

(** The meshes of a record come in the order of their coordinates. *)
Lemma emitted_keys (c : caps) (pr : props) (l : list ledPos) :
  key <$> compact (imap (led c pr) l)
  = filter (fun i => Is_true ((i <=? maxPerPanel c)%nat && negb (skipped c i)))
      (seq 0 (length l)).
Proof.
  apply compact_imap_indices; intros i x Hk; unfold led.
  - destruct (Nat.ltb_spec (maxPerPanel c) i) as [Hgt | Hle]; [done|].
    apply Nat.leb_le in Hle. rewrite Hle in Hk. simpl in Hk.
    apply negb_false_iff in Hk. by rewrite Hk.
  - apply andb_true_iff in Hk as [Hle Hs]. apply Nat.leb_le in Hle.
    apply negb_true_iff in Hs.
    destruct (Nat.ltb_spec (maxPerPanel c) i); [lia|]. rewrite Hs. eauto.
Qed.

(** The mounted edges come in the order of the dataset. *)
Lemma edges_mounted_keys (c : caps) (col : option string) (l : list panel) :
  el_key <$> compact (imap (edge_child c col) l)
  = filter (fun i => Is_true (i <=? maxPanels c)%nat) (seq 0 (length l)).
Proof.
  apply compact_imap_indices; intros i x Hk; unfold edge_child.
  - apply Nat.leb_gt in Hk. apply Nat.ltb_lt in Hk. by rewrite Hk.
  - apply Nat.leb_le in Hk.
    destruct (Nat.ltb_spec (maxPanels c) i); [lia|]. eauto.
Qed.

End Order.

(** C3 at a dataset of 201 panels and 201 edges, nothing selected: the
    source mounts all 201 panels and all 201 edges, one more of each
    than [maxPanels = 200]. *)
Theorem panels_cap_201 :
  exists ps es,
    Sampler.render Sampler.source_caps (Fixtures.many 201) Selection.initial
    = Ok (ps, es)
    /\ length ps = 201%nat /\ length es = 201%nat
    /\ Sampler.maxPanels Sampler.source_caps = 200%nat.
Proof.
  eexists _, _. split; [vm_compute; reflexivity|].
  split; [vm_compute; reflexivity|].
  split; [vm_compute; reflexivity|]. reflexivity.
Qed.

(** C4 at a panel of 3001 LEDs: the source emits 301 meshes (the indices
    0, 10, ..., 3000), where [ceil(min(3001, maxPerPanel) / 10)] is 300. *)
Theorem panel_emits_301 :
  exists ms,
    Sampler.emitted Sampler.source_caps
      (Fixtures.primary_props (Fixtures.strip "P1" 3001)) = Ok ms
    /\ length ms = 301%nat
    /\ Sampler.key <$> last ms = Some 3000%nat
    /\ Num.ceil_div (min 3001 (Sampler.maxPerPanel Sampler.source_caps)) 10
       = 300%nat.
Proof.
  eexists. split; [vm_compute; reflexivity|].
  split; [vm_compute; reflexivity|].
  split; vm_compute; reflexivity.
Qed.



(** ** SelectionModel: keys never go away by toggling *)

Section ToggleRuns.

Import Selection Sampler.

Implicit Types (s : gmap string jsvalue) (a : action) (acts : list action)
  (k id : string).











End ToggleRuns.




(** * Part III: further properties of the code *)

(** ** SelectionModel: how the events compose *)

Section Composition.

Import Selection Events.

Implicit Types (s : gmap string jsvalue) (id which value : string).

Lemma toggle_toggle_ne id id' s :
  id ≠ id' -> toggle id (toggle id' s) = toggle id' (toggle id s).
Proof.
  intros Hne. unfold toggle.
  rewrite !get_insert_ne by done. by apply insert_insert_ne.
Qed.

Lemma toggle_updateColor id which value s :
  id ≠ "colors" ->
  toggle id (updateColor which value s) = updateColor which value (toggle id s).
Proof.
  intros Hne. unfold toggle, updateColor.
  rewrite !get_insert_ne by done. by apply insert_insert_ne.
Qed.

Lemma updateColor_twice which value value' s :
  updateColor which value' (updateColor which value s)
  = updateColor which value' s.
Proof.
  unfold updateColor. rewrite get_insert_eq. simpl.
  by rewrite !insert_insert_eq.
Qed.

Lemma updateColor_swap which which' value value' s :
  which ≠ which' ->
  updateColor which value (updateColor which' value' s)
  = updateColor which' value' (updateColor which value s).
Proof.
  intros Hne. unfold updateColor. rewrite !get_insert_eq. simpl.
  rewrite !insert_insert_eq. do 2 f_equal. by apply insert_insert_ne.
Qed.

Lemma clear_toggle id s : id ≠ "colors" -> clear (toggle id s) = clear s.
Proof.
  intros Hne. unfold clear, toggle. by rewrite get_insert_ne.
Qed.

Lemma clear_clear s : clear (clear s) = clear s.
Proof. unfold clear at 1. by rewrite clear_colors. Qed.

Lemma clear_run (acts : list action) s :
  spares_colors acts = true ->
  clear (run acts s) = run (color_edits acts) (clear s).
Proof.
  revert s. induction acts as [| a acts IH]; intros s Hsp; [done|].
  simpl in Hsp. apply andb_true_iff in Hsp as [Ha Hsp].
  apply negb_true_iff in Ha.
  change (run (a :: acts) s) with (run acts (step s a)).
  rewrite (IH _ Hsp). destruct a as [id | which value |]; simpl.
  - simpl in Ha. rewrite clear_toggle; [done|].
    intros ->. by rewrite bool_decide_eq_true_2 in Ha.
  - by rewrite <- clear_updateColor.
  - by rewrite clear_clear.
Qed.

End Composition.

(** X4: a click on a checkbox commutes with a click on the checkbox of
    another id and, when its id is not "colors", with a colour edit:
    either order gives the same [selected]. *)
Theorem toggle_commutes (id id' which value : string)
    (s : gmap string Selection.jsvalue) :
  id ≠ id' -> id ≠ "colors" ->
  Selection.toggle id (Selection.toggle id' s)
  = Selection.toggle id' (Selection.toggle id s)
  /\ Selection.toggle id (Selection.updateColor which value s)
     = Selection.updateColor which value (Selection.toggle id s).
Proof.
  intros Hne Hc. split; [by apply toggle_toggle_ne | by apply toggle_updateColor].
Qed.

Lemma toggle_commutes_witness :
  "P1" ≠ "P2" /\ "P1" ≠ "colors"
  /\ Selection.toggle "P1" (Selection.toggle "P2" Selection.initial)
     = Selection.toggle "P2" (Selection.toggle "P1" Selection.initial)
  /\ Selection.toggle "P1" (Selection.updateColor "edge" "#ffffff" Selection.initial)
     = Selection.updateColor "edge" "#ffffff" (Selection.toggle "P1" Selection.initial).
Proof.
  assert (H1 : "P1" ≠ "P2") by discriminate.
  assert (H2 : "P1" ≠ "colors") by discriminate.
  repeat (split; [assumption|]).
  exact (toggle_commutes "P1" "P2" "edge" "#ffffff" Selection.initial H1 H2).
Defined.

(** X5: of two edits of the same colour the later one wins, and edits
    of two different colours commute. *)
Theorem updateColor_composes (which which' value value' : string)
    (s : gmap string Selection.jsvalue) :
  Selection.updateColor which value' (Selection.updateColor which value s)
  = Selection.updateColor which value' s
  /\ (which ≠ which' ->
      Selection.updateColor which value (Selection.updateColor which' value' s)
      = Selection.updateColor which' value' (Selection.updateColor which value s)).
Proof.
  split; [apply updateColor_twice | apply updateColor_swap].
Qed.

Lemma updateColor_composes_witness :
  "primary" ≠ "edge"
  /\ Selection.updateColor "primary" "#000000"
       (Selection.updateColor "edge" "#ffffff" Selection.initial)
     = Selection.updateColor "edge" "#ffffff"
         (Selection.updateColor "primary" "#000000" Selection.initial).
Proof.
  assert (H : "primary" ≠ "edge") by discriminate.
  split; [exact H|].
  exact (proj2 (updateColor_composes "primary" "edge" "#000000" "#ffffff"
                  Selection.initial) H).
Defined.

(** X6: [Clear] forgets every click on a checkbox and keeps every
    colour edit.  After any sequence of events without a click on a
    checkbox named "colors", clearing gives the state reached by
    clearing first and replaying the colour edits alone. *)
Theorem clear_forgets_clicks (acts : list Selection.action)
    (s : gmap string Selection.jsvalue) :
  Events.spares_colors acts = true ->
  Selection.clear (Selection.run acts s)
  = Selection.run (Events.color_edits acts) (Selection.clear s).
Proof. apply clear_run. Qed.

Lemma clear_forgets_clicks_witness :
  let acts := [Selection.Toggle "P1"; Selection.SetColor "edge" "#ffffff";
               Selection.Toggle "P2"; Selection.Clear; Selection.Toggle "P1"] in
  Events.spares_colors acts = true
  /\ Selection.clear (Selection.run acts Selection.initial)
     = Selection.run [Selection.SetColor "edge" "#ffffff"]
         (Selection.clear Selection.initial).
Proof.
  intros acts.
  assert (H : Events.spares_colors acts = true) by reflexivity.
  split; [exact H|].
  exact (clear_forgets_clicks acts Selection.initial H).
Defined.

(** ** SelectionModel: a panel named "colors" *)

(** X7: the checkbox of a panel whose id is "colors" writes over the
    colour settings.  From a state whose [colors] is an object, one
    click leaves [false] under "colors" without changing the number of
    keys; both colour fields of [Controls] then read [undefined]; a
    second click leaves [true], not the colours; and a later colour edit
    starts from an empty object, so the other colour is lost. *)
Theorem toggle_colors_overwrites (m : Sampler.teModel)
    (s : gmap string Selection.jsvalue) (which value : string) :
  Selection.wf s ->
  let s' := Selection.toggle "colors" s in
  s' !! "colors" = Some (Selection.VBool false)
  /\ size s' = size s
  /\ Controls.Controls m s'
     = Ok {| Controls.checkboxes :=
               (fun p => (Sampler.id p, Controls.checked s' p)) <$> Sampler.panels m;
             Controls.primary_field := None;
             Controls.edge_field := None |}
  /\ Selection.toggle "colors" s' !! "colors" = Some (Selection.VBool true)
  /\ Selection.get (Selection.updateColor which value s') "colors"
     = Selection.VColors {[ which := value ]}.
Proof.
  intros [col Hc] s'.
  assert (H1 : s' !! "colors" = Some (Selection.VBool false)).
  { subst s'. unfold Selection.toggle, Selection.get. rewrite Hc. simpl.
    apply lookup_insert_eq. }
  assert (Hg : Selection.get s' "colors" = Selection.VBool false).
  { unfold Selection.get. by rewrite H1. }
  split; [exact H1|]. split; [|split; [|split]].
  - subst s'. unfold Selection.toggle.
    apply map_size_insert_Some. by rewrite Hc.
  - unfold Controls.Controls. by rewrite Hg.
  - unfold Selection.toggle at 1. rewrite Hg. simpl. apply lookup_insert_eq.
  - rewrite updateColor_colors, Hg. simpl. by rewrite insert_empty.
Qed.

Lemma toggle_colors_overwrites_witness :
  Selection.wf Selection.initial
  /\ Selection.toggle "colors" Selection.initial !! "colors"
     = Some (Selection.VBool false).
Proof.
  assert (H : Selection.wf Selection.initial) by (eexists; reflexivity).
  split; [exact H|].
  exact (proj1 (toggle_colors_overwrites Fixtures.three_leds Selection.initial
                  "primary" "#000000" H)).
Defined.

(** ** Home: the states the page can reach *)

Section Reachable.

Import Selection Sampler.

Variable m : teModel.
Hypothesis ids_ok : "colors" ∉ (id <$> panels m).

Lemma shape_initial : Home.shape m Selection.initial.
Proof.
  split.
  - eexists. split; [apply lookup_singleton_eq|]. split; [|split].
    + by rewrite lookup_insert_eq.
    + rewrite lookup_insert_ne by done. by rewrite lookup_singleton_eq.
    + intros k [v Hk]. apply lookup_insert_Some in Hk as [[<- _] | [_ Hk]];
        [by left|]. apply lookup_singleton_Some in Hk as [<- _]. by right.
  - intros k v Hne Hk. unfold Selection.initial in Hk.
    by rewrite lookup_singleton_ne in Hk.
Qed.

Lemma shape_handle (s : gmap string jsvalue) (ev : Home.event) :
  Home.shape m s -> Home.shape m (Home.handle m s ev).
Proof.
  intros [(col & Hc & Hp & He & Hk) Hrest].
  destruct ev as [| | i | f value]; simpl.
  - split; [by exists col | done].
  - split.
    + exists col. unfold clear, get. rewrite Hc. simpl.
      split; [apply lookup_singleton_eq | done].
    + intros k v Hne Hl. unfold clear in Hl.
      by rewrite lookup_singleton_ne in Hl.
  - destruct (panels m !! i) as [p |] eqn:Hi; [|split; [by exists col | done]].
    assert (Hin : id p ∈ (id <$> panels m)).
    { apply list_elem_of_fmap. exists p. split; [done|].
      apply list_elem_of_lookup. eauto. }
    assert (Hne : id p ≠ "colors") by (intros E; rewrite E in Hin; done).
    split.
    + exists col. unfold toggle. by rewrite lookup_insert_ne.
    + intros k v Hk' Hl. unfold toggle in Hl.
      apply lookup_insert_Some in Hl as [[<- <-] | [_ Hl]]; [|by eauto].
      split; [eauto | done].
  - split.
    + eexists. unfold updateColor. split; [apply lookup_insert_eq|].
      unfold get. rewrite Hc. simpl. split; [|split].
      * apply lookup_insert_is_Some'. by right.
      * apply lookup_insert_is_Some'. by right.
      * intros k Hl. apply lookup_insert_is_Some' in Hl as [<- | Hl]; [|by auto].
        destruct f; [by left | by right].
    + intros k v Hne Hl. unfold updateColor in Hl.
      rewrite lookup_insert_ne in Hl by done. eauto.
Qed.

Lemma shape_step (st : Home.state) (ev : Home.event) :
  Home.shape m (Home.selected st) ->
  Home.shape m (Home.selected (Home.step m st ev)).
Proof.
  intros Hs. unfold Home.step.
  destruct ev as [| | i | f value]; simpl; [done | ..];
    destruct (Home.edit st); simpl; try done.
  - exact (shape_handle _ Home.ClickClear Hs).
  - exact (shape_handle _ (Home.ClickPanel i) Hs).
  - exact (shape_handle _ (Home.ChangeColor f value) Hs).
Qed.

Lemma shape_run (evs : list Home.event) (st : Home.state) :
  Home.shape m (Home.selected st) ->
  Home.shape m (Home.selected (Home.run m evs st)).
Proof.
  revert st. induction evs as [| ev evs IH]; intros st Hs; [done|].
  simpl. apply IH. by apply shape_step.
Qed.

End Reachable.

(** X8: whatever the user does, [selected] keeps its shape.  When no
    panel of the dataset is named "colors", after every sequence of
    clicks and colour edits starting from the initial page, [colors] is
    an object holding exactly [primary] and [edge], and every other
    property of [selected] is a boolean under the id of a panel. *)
Theorem home_keeps_shape (m : Sampler.teModel) (evs : list Home.event) :
  "colors" ∉ (Sampler.id <$> Sampler.panels m) ->
  Home.shape m (Home.selected (Home.run m evs Home.initial)).
Proof.
  intros Hids. apply shape_run; [done|]. apply shape_initial.
Qed.

Lemma home_keeps_shape_witness :
  ("colors" ∉ (Sampler.id <$> Sampler.panels Fixtures.three_leds))
  /\ Home.shape Fixtures.three_leds
       (Home.selected
          (Home.run Fixtures.three_leds
             [Home.ClickEdit; Home.ClickPanel 0; Home.ChangeColor Home.Edge "#ffffff"]
             Home.initial)).
Proof.
  assert (H : "colors" ∉ (Sampler.id <$> Sampler.panels Fixtures.three_leds)).
  { simpl. intros Hin. apply list_elem_of_singleton in Hin. discriminate Hin. }
  split; [exact H|].
  exact (home_keeps_shape Fixtures.three_leds _ H).
Defined.

(** X9: on every state the page can reach (no panel being named
    "colors"), neither [Controls] nor [Panels] throws, both colour
    fields show a string, and that string is the colour handed to every
    panel element and to every edge element. *)
Theorem home_views_defined (c : Sampler.caps) (m : Sampler.teModel)
    (evs : list Home.event) :
  "colors" ∉ (Sampler.id <$> Sampler.panels m) ->
  let s := Home.selected (Home.run m evs Home.initial) in
  exists primary edge : string,
    Controls.Controls m s
    = Ok {| Controls.checkboxes :=
              (fun p => (Sampler.id p, Controls.checked s p)) <$> Sampler.panels m;
            Controls.primary_field := Some primary;
            Controls.edge_field := Some edge |}
    /\ Sampler.Panels c m s
       = Ok (imap (Sampler.panel_child c s (Some primary)) (Sampler.panels m),
             imap (Sampler.edge_child c (Some edge)) (Sampler.edges m)).
Proof.
  intros Hids s.
  destruct (shape_run m Hids evs Home.initial (shape_initial m))
    as [(col & Hc & [p Hp] & [e He] & _) _].
  fold s in Hc. exists p, e. split.
  - unfold Controls.Controls, Selection.get. rewrite Hc. simpl.
    by rewrite Hp, He.
  - rewrite (Panels_wf _ _ _ _ Hc). by rewrite Hp, He.
Qed.

Lemma home_views_defined_witness :
  let evs := [Home.ClickEdit; Home.ChangeColor Home.Primary "#000000"] in
  let s := Home.selected (Home.run Fixtures.three_leds evs Home.initial) in
  ("colors" ∉ (Sampler.id <$> Sampler.panels Fixtures.three_leds))
  /\ exists primary edge : string,
       Controls.Controls Fixtures.three_leds s
       = Ok {| Controls.checkboxes :=
                 (fun p => (Sampler.id p, Controls.checked s p))
                 <$> Sampler.panels Fixtures.three_leds;
               Controls.primary_field := Some primary;
               Controls.edge_field := Some edge |}.
Proof.
  intros evs s.
  assert (H : "colors" ∉ (Sampler.id <$> Sampler.panels Fixtures.three_leds)).
  { simpl. intros Hin. apply list_elem_of_singleton in Hin. discriminate Hin. }
  split; [exact H|].
  destruct (home_views_defined Sampler.source_caps Fixtures.three_leds evs H)
    as (p & e & Hcv & _).
  exists p, e. exact Hcv.
Defined.

(** ** Controls and Panels together *)

Section Checkboxes.

Import Selection Sampler.

Lemma keys_gt_1_of_entry (s : gmap string jsvalue) (k : string) :
  is_Some (s !! "colors") -> k ≠ "colors" -> is_Some (s !! k) ->
  (1 <? size s)%nat = true.
Proof.
  intros Hc Hne Hk. rewrite (size_enabled s Hc). apply Nat.ltb_lt.
  assert (size (enabled s) ≠ 0%nat); [|lia].
  apply (map_size_ne_0_lookup_2 _ k). unfold enabled.
  by rewrite lookup_delete_ne.
Qed.

Lemma size_clear (s : gmap string jsvalue) : size (clear s) = 1%nat.
Proof. unfold clear. apply map_size_singleton. Qed.

End Checkboxes.

(** X10: as soon as one box is ticked, the scene shows what is ticked.
    When [colors] is an object and some key of [selected] other than
    "colors" holds a truthy value, a panel whose index is at most
    [maxPanels] is mounted exactly when its checkbox is ticked. *)
Theorem ticked_is_shown (c : Sampler.caps) (m : Sampler.teModel)
    (s : gmap string Selection.jsvalue) (k : string) (v : Selection.jsvalue)
    (i : nat) (p : Sampler.panel) :
  Selection.wf s ->
  k ≠ "colors" -> s !! k = Some v -> Selection.truthy v = true ->
  Sampler.panels m !! i = Some p ->
  (i <= Sampler.maxPanels c)%nat ->
  Sampler.panel_shown c m s i = Controls.checked s p.
Proof.
  intros Hwf Hne Hk _ Hp Hi. rewrite (panel_shown_eq _ _ _ _ _ Hwf Hp).
  apply Nat.leb_le in Hi. rewrite Hi, andb_true_r.
  unfold Sampler.filtered, Controls.checked.
  destruct Hwf as [col Hc].
  assert (Hsz : (1 <? size s)%nat = true).
  { apply (keys_gt_1_of_entry s k); [by rewrite Hc | done | by rewrite Hk]. }
  rewrite Hsz. simpl. apply negb_involutive.
Qed.

(** With "P1" ticked, the panel "P1" at index 0 is mounted. *)
Lemma ticked_is_shown_witness :
  let s := Selection.toggle "P1" Selection.initial in
  let p := {| Sampler.id := "P1";
              Sampler.leds := Some [(0, 0, 0); (1, 1, 1); (2, 2, 2)] |} in
  Selection.wf s
  /\ "P1" ≠ "colors"
  /\ s !! "P1" = Some (Selection.VBool true)
  /\ Selection.truthy (Selection.VBool true) = true
  /\ Sampler.panels Fixtures.three_leds !! 0%nat = Some p
  /\ (0 <= Sampler.maxPanels Sampler.source_caps)%nat
  /\ Sampler.panel_shown Sampler.source_caps Fixtures.three_leds s 0
     = Controls.checked s p.
Proof.
  intros s p.
  assert (H1 : Selection.wf s) by (eexists; reflexivity).
  assert (H2 : "P1" ≠ "colors") by discriminate.
  assert (H3 : s !! "P1" = Some (Selection.VBool true)) by reflexivity.
  assert (H3' : Selection.truthy (Selection.VBool true) = true) by reflexivity.
  assert (H4 : Sampler.panels Fixtures.three_leds !! 0%nat = Some p) by reflexivity.
  assert (H5 : (0 <= Sampler.maxPanels Sampler.source_caps)%nat) by (simpl; lia).
  repeat (split; [assumption|]).
  exact (ticked_is_shown Sampler.source_caps Fixtures.three_leds s "P1" _ 0 p
           H1 H2 H3 H3' H4 H5).
Defined.

(** X11: [Clear] brings every panel back.  From any state whose
    [colors] is an object, after [Clear] every panel whose index is at
    most [maxPanels] is mounted; the checkbox of a panel not named
    "colors" is unticked, unless its id names a member of
    [Object.prototype], whose box always shows ticked without an entry;
    and the colours handed to the elements are the ones from before. *)
Theorem clear_shows_all (c : Sampler.caps) (m : Sampler.teModel)
    (s : gmap string Selection.jsvalue) (i : nat) (p : Sampler.panel) :
  Selection.wf s ->
  Sampler.panels m !! i = Some p ->
  Sampler.panel_shown c m (Selection.clear s) i = (i <=? Sampler.maxPanels c)%nat
  /\ (Sampler.id p ≠ "colors" ->
      Controls.checked (Selection.clear s) p = Selection.inherited (Sampler.id p))
  /\ Selection.member (Selection.get (Selection.clear s) "colors") "primary"
     = Selection.member (Selection.get s "colors") "primary"
  /\ Selection.member (Selection.get (Selection.clear s) "colors") "edge"
     = Selection.member (Selection.get s "colors") "edge".
Proof.
  intros Hwf Hp. split; [|split].
  - rewrite (panel_shown_eq _ _ _ _ _ (wf_clear _ Hwf) Hp).
    unfold Sampler.filtered. by rewrite size_clear.
  - intros Hne. unfold Controls.checked, Selection.clear, Selection.get.
    rewrite lookup_singleton_ne by done.
    by destruct (Selection.inherited (Sampler.id p)).
  - by rewrite clear_colors.
Qed.

(** Ticking and unticking "P1" hides it; [Clear] shows it again. *)
Lemma clear_shows_all_witness :
  let s := Selection.toggle "P1" (Selection.toggle "P1" Selection.initial) in
  let p := {| Sampler.id := "P1";
              Sampler.leds := Some [(0, 0, 0); (1, 1, 1); (2, 2, 2)] |} in
  Selection.wf s
  /\ Sampler.panels Fixtures.three_leds !! 0%nat = Some p
  /\ Sampler.panel_shown Sampler.source_caps Fixtures.three_leds s 0 = false
  /\ Sampler.panel_shown Sampler.source_caps Fixtures.three_leds
       (Selection.clear s) 0 = true.
Proof.
  intros s p.
  assert (H1 : Selection.wf s) by (eexists; reflexivity).
  assert (H2 : Sampler.panels Fixtures.three_leds !! 0%nat = Some p) by reflexivity.
  repeat (split; [assumption|]).
  split; [reflexivity|].
  exact (proj1 (clear_shows_all Sampler.source_caps Fixtures.three_leds s 0 p H1 H2)).
Defined.

(** ** GeometrySampler: how many meshes, and which *)

Section Counting.

Import Selection Sampler.

Implicit Types (c : caps) (pr : props) (l : list ledPos).

(** With [skipLeds = 0] every index is dropped. *)
Lemma emitted_count_zero c pr l :
  skipLeds c = Some 0%nat -> length (compact (imap (led c pr) l)) = 0%nat.
Proof.
  intros Hs. induction l as [| x l IH] using rev_ind; [done|].
  rewrite compact_imap_snoc, IH. unfold led, skipped. rewrite Hs. simpl.
  by destruct (maxPerPanel c <? length l)%nat.
Qed.

Lemma emitted_le c pr l :
  (length (compact (imap (led c pr) l)) <= min (length l) (S (maxPerPanel c)))%nat.
Proof.
  induction l as [| x l IH] using rev_ind; [done|].
  rewrite compact_imap_snoc, length_app. simpl.
  set (n := length (compact (imap (led c pr) l))) in *. unfold led.
  destruct (Nat.ltb_spec (maxPerPanel c) (length l)); [lia|].
  destruct (skipped c (length l)); lia.
Qed.

Lemma ceil_div_mono (a b k : nat) :
  (a <= b)%nat -> (Num.ceil_div a k <= Num.ceil_div b k)%nat.
Proof.
  intros Hab. unfold Num.ceil_div. destruct k as [| k]; [done|].
  apply Nat.Div0.div_le_mono. lia.
Qed.

Lemma panels_mounted_le c (s : gmap string jsvalue) (col : option string)
    (l : list panel) :
  (length (compact (imap (panel_child c s col) l))
   <= min (length l) (S (maxPanels c)))%nat.
Proof.
  induction l as [| x l IH] using rev_ind; [done|].
  rewrite compact_imap_snoc, length_app. simpl.
  set (n := length (compact (imap (panel_child c s col) l))) in *.
  unfold panel_child. destruct (filtered s x); [lia|].
  destruct (Nat.ltb_spec (maxPanels c) (length l)); lia.
Qed.

(** What [Panels] returns when it does not throw. *)
Lemma Panels_inv c (m : teModel) (s : gmap string jsvalue) ch :
  Panels c m s = Ok ch ->
  exists pc ec,
    member (get s "colors") "primary" = Ok pc
    /\ member (get s "colors") "edge" = Ok ec
    /\ ch = (imap (panel_child c s pc) (panels m),
             imap (edge_child c ec) (edges m)).
Proof.
  unfold Panels.
  destruct (member (get s "colors") "primary") as [pc |]; simpl; [|done].
  destruct (member (get s "colors") "edge") as [ec |]; simpl; [|done].
  intros [= <-]. by exists pc, ec.
Qed.

(** What mounting returns when it does not throw: one group per
    element, holding the meshes of that element's record. *)
Lemma mount_inv c (ch : list (option element)) gs :
  mount c ch = Ok gs ->
  Forall2 (fun el g =>
             exists l, leds (panel_of (el_props el)) = Some l
                       /\ g = (el_key el, compact (imap (led c (el_props el)) l)))
          (compact ch) gs.
Proof.
  revert gs. induction ch as [| [el |] rest IH]; intros gs; simpl.
  - intros [= <-]. constructor.
  - unfold mount_one, Panel.
    destruct (leds (panel_of (el_props el))) as [l |] eqn:El; simpl; [|done].
    destruct (mount c rest) as [gs' |]; simpl; [|done].
    intros [= <-]. unfold compact. simpl. constructor; [by exists l|].
    by apply IH.
  - apply IH.
Qed.

Lemma render_inv c (m : teModel) (s : gmap string jsvalue) ps es :
  render c m s = Ok (ps, es) ->
  exists pc ec,
    member (get s "colors") "primary" = Ok pc
    /\ member (get s "colors") "edge" = Ok ec
    /\ mount c (imap (panel_child c s pc) (panels m)) = Ok ps
    /\ mount c (imap (edge_child c ec) (edges m)) = Ok es.
Proof.
  unfold render. destruct (Panels c m s) as [ch |] eqn:Ech; simpl; [|done].
  apply Panels_inv in Ech as (pc & ec & Hpc & Hec & ->). simpl.
  destruct (mount c (imap (panel_child c s pc) (panels m))) as [ps' |] eqn:Ep;
    simpl; [|done].
  destruct (mount c (imap (edge_child c ec) (edges m))) as [es' |] eqn:Ee;
    simpl; [|done].
  intros [= <- <-]. by exists pc, ec.
Qed.

Lemma mount_length c (ch : list (option element)) gs :
  mount c ch = Ok gs -> length gs = length (compact ch).
Proof.
  intros Hm. apply mount_inv in Hm. symmetry. by eapply Forall2_length.
Qed.

End Counting.

(** X12: how many meshes a record gives.  A record with [len]
    coordinates is drawn with [min(len, maxPerPanel + 1)] meshes when
    [skipLeds] is [false], with none when [skipLeds] is 0, and with
    [ceil(min(len, maxPerPanel + 1) / skipLeds)] meshes otherwise. *)
Theorem emitted_count (c : Sampler.caps) (pr : Sampler.props)
    (l : list Sampler.ledPos) :
  Sampler.leds (Sampler.panel_of pr) = Some l ->
  exists ms,
    Sampler.emitted c pr = Ok ms
    /\ length ms
       = match Sampler.skipLeds c with
         | None => min (length l) (S (Sampler.maxPerPanel c))
         | Some O => 0%nat
         | Some k => Num.ceil_div (min (length l) (S (Sampler.maxPerPanel c))) k
         end.
Proof.
  intros Hl. unfold Sampler.emitted. rewrite (Panel_Ok _ _ _ Hl). simpl.
  eexists. split; [done|].
  destruct (Sampler.skipLeds c) as [[| k] |] eqn:Hs.
  - by apply emitted_count_zero.
  - apply emitted_count_skip; [done | lia].
  - by apply emitted_count_noskip.
Qed.

(** 25 coordinates, every 10th kept: 3 meshes. *)
Lemma emitted_count_witness :
  let pr := Fixtures.primary_props (Fixtures.strip "P1" 25) in
  exists l ms,
    Sampler.leds (Sampler.panel_of pr) = Some l
    /\ length l = 25%nat
    /\ Sampler.emitted Sampler.source_caps pr = Ok ms
    /\ length ms = 3%nat.
Proof.
  intros pr.
  assert (H : Sampler.leds (Sampler.panel_of pr)
              = Some ((fun i => (inject_Z (Z.of_nat i), 0, 0)) <$> seq 0 25))
    by reflexivity.
  destruct (emitted_count Sampler.source_caps pr _ H) as (ms & Hm & Hlen).
  eexists _, ms. split; [exact H|]. split; [reflexivity|].
  split; [exact Hm|]. exact Hlen.
Defined.

(** X13: the size of the scene is bounded.  Whenever rendering does not
    throw, at most [maxPanels + 1] panels and at most [maxPanels + 1]
    edges are mounted, none with more than [maxPerPanel + 1] meshes, and
    with a positive [skipLeds] none with more than
    [ceil((maxPerPanel + 1) / skipLeds)] meshes: 201 panels and 201
    edges of at most 301 meshes each for the constants of the source. *)
Theorem render_bounds (c : Sampler.caps) (m : Sampler.teModel)
    (s : gmap string Selection.jsvalue)
    (ps es : list (nat * list Sampler.mesh)) :
  Sampler.render c m s = Ok (ps, es) ->
  (length ps <= min (length (Sampler.panels m)) (S (Sampler.maxPanels c)))%nat
  /\ length es = min (length (Sampler.edges m)) (S (Sampler.maxPanels c))
  /\ Forall (fun g => (length (snd g) <= S (Sampler.maxPerPanel c))%nat) (ps ++ es)
  /\ (forall k, Sampler.skipLeds c = Some k -> (0 < k)%nat ->
        Forall (fun g => (length (snd g)
                          <= Num.ceil_div (S (Sampler.maxPerPanel c)) k)%nat)
               (ps ++ es)).
Proof.
  intros Hr. apply render_inv in Hr as (pc & ec & _ & _ & Hps & Hes).
  pose proof (mount_inv _ _ _ Hps) as Ip. pose proof (mount_inv _ _ _ Hes) as Ie.
  split; [|split; [|split]].
  - rewrite (mount_length _ _ _ Hps). apply panels_mounted_le.
  - rewrite (mount_length _ _ _ Hes). apply edges_mounted_count.
  - apply Forall_app. split.
    + eapply Forall2_Forall_r; [exact Ip|]. apply Forall_forall.
      intros el _ g (l & _ & ->). simpl.
      etransitivity; [apply emitted_le | lia].
    + eapply Forall2_Forall_r; [exact Ie|]. apply Forall_forall.
      intros el _ g (l & _ & ->). simpl.
      etransitivity; [apply emitted_le | lia].
  - intros k Hk Hpos. apply Forall_app. split.
    + eapply Forall2_Forall_r; [exact Ip|]. apply Forall_forall.
      intros el _ g (l & _ & ->). simpl.
      rewrite (emitted_count_skip _ _ _ _ Hk Hpos). apply ceil_div_mono. lia.
    + eapply Forall2_Forall_r; [exact Ie|]. apply Forall_forall.
      intros el _ g (l & _ & ->). simpl.
      rewrite (emitted_count_skip _ _ _ _ Hk Hpos). apply ceil_div_mono. lia.
Qed.

Lemma render_bounds_witness :
  exists ps es,
    Sampler.render Sampler.source_caps Fixtures.three_leds Selection.initial
    = Ok (ps, es)
    /\ (length ps <= 201)%nat /\ length es = 0%nat
    /\ Forall (fun g => (length (snd g) <= 301)%nat) (ps ++ es).
Proof.
  eexists _, _. split; [reflexivity|].
  destruct (render_bounds Sampler.source_caps Fixtures.three_leds
              Selection.initial _ _ eq_refl) as (Hp & He & _ & Hk).
  split; [simpl in *; lia|]. split; [exact He|].
  exact (Hk 10%nat eq_refl ltac:(lia)).
Defined.

(** X14: the meshes of a record follow its coordinates.  The keys of
    the emitted meshes are, in increasing order, the indices that are at
    most [maxPerPanel] and not skipped; and each emitted mesh sits at
    the transformed coordinate found at its key, with the size and the
    colour given to the record. *)
Theorem emitted_in_order (c : Sampler.caps) (pr : Sampler.props)
    (l : list Sampler.ledPos) (ms : list Sampler.mesh) :
  Sampler.leds (Sampler.panel_of pr) = Some l ->
  Sampler.emitted c pr = Ok ms ->
  Sampler.key <$> ms
  = filter (fun i => Is_true ((i <=? Sampler.maxPerPanel c)%nat
                              && negb (Sampler.skipped c i)))
      (seq 0 (length l))
  /\ (forall x, x ∈ ms ->
        exists q, l !! Sampler.key x = Some q
                  /\ x = {| Sampler.key := Sampler.key x;
                            Sampler.position := Sampler.transform q;
                            Sampler.radius := Sampler.ledSize_of pr;
                            Sampler.color := Sampler.ledColor_of pr |}).
Proof.
  intros Hl. unfold Sampler.emitted. rewrite (Panel_Ok _ _ _ Hl). simpl.
  intros [= <-]. split; [apply emitted_keys|].
  intros x Hx. unfold compact in Hx.
  apply list_elem_of_omap in Hx as (slot & Hin & ->).
  apply list_elem_of_lookup in Hin as (i & Hi).
  apply list_lookup_imap_Some in Hi as (q & Hq & Hled). symmetry in Hled.
  apply led_Some in Hled as (_ & _ & ->). simpl. by exists q.
Qed.

(** Three coordinates, every 10th kept: the mesh of index 0 alone. *)
Lemma emitted_in_order_witness :
  let pr := Fixtures.primary_props (Fixtures.strip "P1" 3) in
  exists l ms,
    Sampler.leds (Sampler.panel_of pr) = Some l
    /\ Sampler.emitted Sampler.source_caps pr = Ok ms
    /\ Sampler.key <$> ms = [0%nat].
Proof.
  intros pr. eexists _, _.
  assert (H1 : Sampler.leds (Sampler.panel_of pr)
               = Some ((fun i => (inject_Z (Z.of_nat i), 0, 0)) <$> seq 0 3))
    by reflexivity.
  split; [exact H1|]. split; [reflexivity|].
  exact (proj1 (emitted_in_order Sampler.source_caps pr _ _ H1 eq_refl)).
Defined.

(** X15: a mounted record with a coordinate is never invisible.
    Unless [skipLeds] is 0, the first coordinate of a record is always
    drawn: the first emitted mesh has key 0 and sits at the transformed
    first coordinate. *)
Theorem first_led_emitted (c : Sampler.caps) (pr : Sampler.props)
    (q : Sampler.ledPos) (l : list Sampler.ledPos) :
  Sampler.leds (Sampler.panel_of pr) = Some (q :: l) ->
  Sampler.skipLeds c ≠ Some 0%nat ->
  exists ms,
    Sampler.emitted c pr
    = Ok ({| Sampler.key := 0; Sampler.position := Sampler.transform q;
             Sampler.radius := Sampler.ledSize_of pr;
             Sampler.color := Sampler.ledColor_of pr |} :: ms).
Proof.
  intros Hl Hk. unfold Sampler.emitted. rewrite (Panel_Ok _ _ _ Hl). simpl.
  unfold compact. simpl. unfold Sampler.led at 1.
  assert (Hs : Sampler.skipped c 0 = false).
  { unfold Sampler.skipped. destruct (Sampler.skipLeds c) as [[| k] |]; try done.
    unfold Num.rem_ne_0. by rewrite Nat.Div0.mod_0_l. }
  rewrite Hs. simpl. by eexists.
Qed.

Lemma first_led_emitted_witness :
  let pr := Fixtures.primary_props
              {| Sampler.id := "P1"; Sampler.leds := Some [(1, 2, 3); (4, 5, 6)] |} in
  Sampler.leds (Sampler.panel_of pr) = Some [(1, 2, 3); (4, 5, 6)]
  /\ Sampler.skipLeds Sampler.source_caps ≠ Some 0%nat
  /\ exists ms,
       Sampler.emitted Sampler.source_caps pr
       = Ok ({| Sampler.key := 0; Sampler.position := Sampler.transform (1, 2, 3);
                Sampler.radius := Sampler.ledSize_of pr;
                Sampler.color := Sampler.ledColor_of pr |} :: ms).
Proof.
  intros pr.
  assert (H1 : Sampler.leds (Sampler.panel_of pr) = Some [(1, 2, 3); (4, 5, 6)])
    by reflexivity.
  assert (H2 : Sampler.skipLeds Sampler.source_caps ≠ Some 0%nat) by discriminate.
  repeat (split; [assumption|]).
  exact (first_led_emitted Sampler.source_caps pr _ _ H1 H2).
Defined.

(** ** GeometrySampler: sizes and colours *)

Section Roles.

Import Selection Sampler.

Lemma mount_attributes (c : caps) (ch : list (option element))
    (gs : list (nat * list mesh)) (r : Q) (col : option string) :
  (forall el, Some el ∈ ch ->
     ledSize_of (el_props el) = r /\ ledColor_of (el_props el) = col) ->
  mount c ch = Ok gs ->
  Forall (fun g => Forall (fun x => radius x = r /\ color x = col) (snd g)) gs.
Proof.
  intros Hch Hm. apply mount_inv in Hm.
  eapply Forall2_Forall_r; [exact Hm|]. apply Forall_forall.
  intros el Hel g (l & _ & ->). simpl.
  assert (Hin : Some el ∈ ch).
  { unfold compact in Hel. apply list_elem_of_omap in Hel as (x & Hx & ->).
    done. }
  destruct (Hch el Hin) as [Hr Hc]. apply Forall_forall. intros x Hx.
  unfold compact in Hx. apply list_elem_of_omap in Hx as (slot & Hs & ->).
  apply list_elem_of_lookup in Hs as (i & Hi).
  apply list_lookup_imap_Some in Hi as (q & _ & Hled). symmetry in Hled.
  apply led_Some in Hled as (_ & _ & ->). simpl. done.
Qed.

End Roles.

(** X16: size and colour go by role.  Whenever rendering does not
    throw, every mesh of a panel has the radius [ledSize] and the colour
    read from [colors.primary], and every mesh of an edge has the radius
    [edgeLedSize] and the colour read from [colors.edge]. *)
Theorem meshes_by_role (c : Sampler.caps) (m : Sampler.teModel)
    (s : gmap string Selection.jsvalue)
    (ps es : list (nat * list Sampler.mesh)) :
  Sampler.render c m s = Ok (ps, es) ->
  exists pc ec,
    Selection.member (Selection.get s "colors") "primary" = Ok pc
    /\ Selection.member (Selection.get s "colors") "edge" = Ok ec
    /\ Forall (fun g => Forall (fun x => Sampler.radius x = Sampler.ledSize
                                         /\ Sampler.color x = pc) (snd g)) ps
    /\ Forall (fun g => Forall (fun x => Sampler.radius x = Sampler.edgeLedSize
                                         /\ Sampler.color x = ec) (snd g)) es.
Proof.
  intros Hr. apply render_inv in Hr as (pc & ec & Hpc & Hec & Hps & Hes).
  exists pc, ec. split; [done|]. split; [done|]. split.
  - apply (fun H => mount_attributes c _ ps Sampler.ledSize pc H Hps).
    intros el Hin. apply list_elem_of_lookup in Hin as (i & Hi).
    apply list_lookup_imap_Some in Hi as (p & _ & Hel).
    unfold Sampler.panel_child in Hel.
    destruct (Sampler.filtered s p); [done|].
    destruct (Sampler.maxPanels c <? i)%nat; [done|].
    by injection Hel as ->.
  - apply (fun H => mount_attributes c _ es Sampler.edgeLedSize ec H Hes).
    intros el Hin. apply list_elem_of_lookup in Hin as (i & Hi).
    apply list_lookup_imap_Some in Hi as (p & _ & Hel).
    unfold Sampler.edge_child in Hel.
    destruct (Sampler.maxPanels c <? i)%nat; [done|].
    by injection Hel as ->.
Qed.

Lemma meshes_by_role_witness :
  exists ps es,
    Sampler.render Sampler.source_caps Fixtures.three_leds Selection.initial
    = Ok (ps, es)
    /\ Forall (fun g => Forall (fun x => Sampler.radius x = Sampler.ledSize
                                         /\ Sampler.color x = Some "#e84971")
                               (snd g)) ps.
Proof.
  eexists _, _. split; [reflexivity|].
  destruct (meshes_by_role Sampler.source_caps Fixtures.three_leds
              Selection.initial _ _ eq_refl) as (pc & ec & Hpc & _ & Hps & _).
  injection Hpc as <-. exact Hps.
Defined.

(** ** GeometrySampler: a colour edit repaints and does nothing else *)

Section Repaint.

Import Selection Sampler Paint.

Lemma compact_fmap {A B} (f : A -> B) (l : list (option A)) :
  compact (fmap (M:=option) f <$> l) = f <$> compact l.
Proof.
  unfold compact. induction l as [| [x |] l IH]; [done | |].
  - change (f x :: omap (fun o : option B => o) (fmap (M:=option) f <$> l)
            = f x :: (f <$> omap (fun o : option A => o) l)).
    by rewrite IH.
  - exact IH.
Qed.

Lemma led_recolor (c : caps) (pr : props) (col : option string)
    (i : nat) (q : ledPos) :
  led c {| panel_of := panel_of pr; ledSize_of := ledSize_of pr;
           ledColor_of := col |} i q
  = paint col <$> led c pr i q.
Proof.
  unfold led. simpl. destruct (maxPerPanel c <? i)%nat; [done|].
  by destruct (skipped c i).
Qed.

Lemma mount_one_recolor (c : caps) (col : option string) (e : element) :
  mount_one c (recolor col e)
  = mount_one c e
    ≫= fun g : nat * list mesh => Ok (fst g, paint col <$> snd g).
Proof.
  unfold mount_one, Panel, recolor. simpl.
  destruct (leds (panel_of (el_props e))) as [l |]; simpl; [|done].
  do 2 f_equal. rewrite <- compact_fmap. f_equal. rewrite fmap_imap.
  apply imap_ext. intros i q _. apply led_recolor.
Qed.

Lemma mount_cons_Some (c : caps) (e : element) (rest : list (option element)) :
  mount c (Some e :: rest)
  = g ← mount_one c e; gs ← mount c rest; Ok (g :: gs).
Proof. reflexivity. Qed.

Lemma mount_cons_None (c : caps) (rest : list (option element)) :
  mount c (None :: rest) = mount c rest.
Proof. reflexivity. Qed.

Lemma mount_recolor (c : caps) (col : option string)
    (ch : list (option element)) :
  mount c (fmap (M:=option) (recolor col) <$> ch) = gs ← mount c ch; Ok (repaint col gs).
Proof.
  induction ch as [| [e |] rest IH]; [done | |].
  - rewrite fmap_cons.
    change (fmap (M:=option) (recolor col) (Some e)) with (Some (recolor col e)).
    rewrite !mount_cons_Some, mount_one_recolor, IH.
    destruct (mount_one c e) as [g |]; simpl; [|done].
    by destruct (mount c rest).
  - rewrite fmap_cons.
    change (fmap (M:=option) (recolor col) None) with (@None element).
    by rewrite !mount_cons_None.
Qed.

Lemma panel_children_recolor (c : caps) (s s' : gmap string jsvalue)
    (col col' : option string) (l : list panel) :
  (forall p, filtered s' p = filtered s p) ->
  imap (panel_child c s' col') l
  = fmap (M:=option) (recolor col') <$> imap (panel_child c s col) l.
Proof.
  intros Hf. rewrite fmap_imap. apply imap_ext. intros i p _. simpl.
  unfold panel_child. rewrite Hf. destruct (filtered s p); [done|].
  by destruct (maxPanels c <? i)%nat.
Qed.

Lemma panel_children_same (c : caps) (s s' : gmap string jsvalue)
    (col : option string) (l : list panel) :
  (forall p, filtered s' p = filtered s p) ->
  imap (panel_child c s' col) l = imap (panel_child c s col) l.
Proof.
  intros Hf. apply imap_ext. intros i p _. unfold panel_child. by rewrite Hf.
Qed.

Lemma edge_children_recolor (c : caps) (col col' : option string)
    (l : list panel) :
  imap (edge_child c col') l = fmap (M:=option) (recolor col') <$> imap (edge_child c col) l.
Proof.
  rewrite fmap_imap. apply imap_ext. intros i p _. simpl.
  unfold edge_child. by destruct (maxPanels c <? i)%nat.
Qed.

End Repaint.

(** X18: a colour edit repaints and does nothing else.  From a state
    whose [colors] is an object, rendering after an edit of the primary
    colour throws exactly when rendering before did, and otherwise gives
    the same panel groups with every mesh in the new colour and the
    very same edge groups; an edit of the edge colour does the same with
    the roles exchanged.  Keys, positions and radii never change. *)
Theorem color_edit_repaints (c : Sampler.caps) (m : Sampler.teModel)
    (s : gmap string Selection.jsvalue) (value : string) :
  Selection.wf s ->
  Sampler.render c m (Selection.updateColor "primary" value s)
  = (out ← Sampler.render c m s;
     Ok (Paint.repaint (Some value) (fst out), snd out))
  /\ Sampler.render c m (Selection.updateColor "edge" value s)
     = (out ← Sampler.render c m s;
        Ok (fst out, Paint.repaint (Some value) (snd out))).
Proof.
  intros [col Hc].
  assert (Hf : forall which p,
             Sampler.filtered (Selection.updateColor which value s) p
             = Sampler.filtered s p).
  { intros which p. apply filtered_updateColor. by exists col. }
  assert (Hu : forall which,
             Selection.updateColor which value s !! "colors"
             = Some (Selection.VColors (<[which := value]> col))).
  { intros which. unfold Selection.updateColor, Selection.get.
    rewrite Hc. simpl. apply lookup_insert_eq. }
  unfold Sampler.render. rewrite (Panels_wf _ _ _ _ Hc).
  rewrite !(Panels_wf _ _ _ _ (Hu _)). simpl. split.
  - rewrite lookup_insert_eq. rewrite lookup_insert_ne by done.
    rewrite (panel_children_recolor c s _ (col !! "primary") (Some value))
      by apply Hf.
    rewrite mount_recolor.
    destruct (Sampler.mount c
                (imap (Sampler.panel_child c s (col !! "primary"))
                   (Sampler.panels m))) as [ps |]; simpl; [|done].
    by destruct (Sampler.mount c
                   (imap (Sampler.edge_child c (col !! "edge"))
                      (Sampler.edges m))).
  - rewrite lookup_insert_eq. rewrite lookup_insert_ne by done.
    rewrite (panel_children_same c s _ (col !! "primary")) by apply Hf.
    rewrite (edge_children_recolor c (col !! "edge") (Some value)).
    rewrite mount_recolor.
    destruct (Sampler.mount c
                (imap (Sampler.panel_child c s (col !! "primary"))
                   (Sampler.panels m))) as [ps |]; simpl; [|done].
    by destruct (Sampler.mount c
                   (imap (Sampler.edge_child c (col !! "edge"))
                      (Sampler.edges m))).
Qed.

Lemma color_edit_repaints_witness :
  Selection.wf Selection.initial
  /\ Sampler.render Sampler.source_caps Fixtures.three_leds
       (Selection.updateColor "primary" "#000000" Selection.initial)
     = (out ← Sampler.render Sampler.source_caps Fixtures.three_leds
                Selection.initial;
        Ok (Paint.repaint (Some "#000000") (fst out), snd out)).
Proof.
  assert (H : Selection.wf Selection.initial) by (eexists; reflexivity).
  split; [exact H|].
  exact (proj1 (color_edit_repaints Sampler.source_caps Fixtures.three_leds
                  Selection.initial "#000000" H)).
Defined.
